(** * Size control, state [DeltaR]

    Shallow embedding of
    [src/ControlSystem/ControlErrors/Size/DeltaR.cpp]
    (namespace [control_system::size::States]).

    A C++ [double] is an IEEE 754 binary64 number: it is modelled by Rocq's
    primitive [float], whose operations are the binary64 operations with
    rounding to nearest, ties to even.  [a < b] on doubles is [a <? b],
    [a > b] is [b <? a], [std::abs] is [abs], and
    [std::numeric_limits<double>::infinity()] is [infinity].  A
    [std::optional<double>] is an [option float]. *)

From Stdlib Require Import ZArith Lia Bool List String.
From Stdlib Require Import Floats.
Import ListNotations.

Set Warnings "-inexact-float".

Local Open Scope string_scope.
Local Open Scope list_scope.
Local Open Scope float_scope.

(** ** Data model *)

(** Modelled from the spec: the class hierarchy under
    [control_system::size::State] (State.hpp and the headers of the five
    states are not part of the sources at hand).  The spec lists the
    variants; a state carries no data of its own. *)
Inductive State : Type :=
| Initial
| AhSpeed
| DeltaR
| DeltaRDriftInward
| DeltaRDriftOutward.

(** Modelled from the spec: [control_system::size::Info] (Info.hpp is not
    part of the sources at hand).  The fields are the ones [DeltaR::update]
    reads and writes; [suggested_time_scale] and [target_char_speed] are
    optional, as the spec has them. *)
Record Info : Type := Build_Info {
  state : State;
  damping_time : float;
  target_char_speed : option float;
  suggested_time_scale : option float;
  discontinuous_change_has_occurred : bool
}.

(** Modelled from the spec: [control_system::size::StateUpdateArgs]. *)
Record StateUpdateArgs : Type := Build_StateUpdateArgs {
  min_char_speed : float;
  min_comoving_char_speed : float;
  control_error_delta_r : float
}.

(** Modelled from the spec: [control_system::size::CrossingTimeInfo]. *)
Record CrossingTimeInfo : Type := Build_CrossingTimeInfo {
  t_char_speed : option float;
  t_comoving_char_speed : option float;
  t_delta_radius : option float;
  char_speed_will_hit_zero_first : bool;
  horizon_will_hit_excision_boundary_first : bool
}.

(** Modelled from the spec: [control_system::size::ControlErrorArgs], of
    which [DeltaR::control_error] reads the one field
    [control_error_delta_r].  The record has a name space of its own, as its
    field shares its name with the field of [StateUpdateArgs]. *)
Module ControlErrorArgs.
Record t : Type := Build {
  control_error_delta_r : float
}.
End ControlErrorArgs.

(** [std::optional<double>::value_or]. *)
Definition value_or (o : option float) (dflt : float) : float :=
  match o with
  | Some v => v
  | None => dflt
  end.

(** [std::optional<double>::has_value]. *)
Definition has_value (o : option float) : bool :=
  match o with
  | Some _ => true
  | None => false
  end.

(** What is streamed into the [std::stringstream]: string literals, doubles
    and optional doubles.  The decimal rendering of the numbers is left to
    the stream; the diagnostic is the sequence of the items written. *)
Inductive Item : Type :=
| Text (s : string)
| Num (x : float)
| OptNum (o : option float).

Definition Diagnostic : Type := list Item.

(** The one-character string ["\n"] of the source. *)
Definition nl : string := String (Ascii.ascii_of_nat 10) EmptyString.

(** ** [DeltaR::update] *)

Module DeltaRState.

Definition delta_r_control_error_threshold : float := 1e-3.
Definition time_tolerance_for_delta_r_in_danger : float := 0.99.
Definition non_oscillation_factor : float := 1.01.
Definition delta_r_state_decrease_factor : float := 0.99.

(** Lines 39-43. *)
Definition delta_radius_is_in_danger
    (info : Info) (crossing_time_info : CrossingTimeInfo) : bool :=
  horizon_will_hit_excision_boundary_first crossing_time_info &&
  (value_or (t_delta_radius crossing_time_info) infinity
     <? damping_time info * time_tolerance_for_delta_r_in_danger).

(** Lines 44-48. *)
Definition char_speed_is_in_danger
    (info : Info) (crossing_time_info : CrossingTimeInfo) : bool :=
  char_speed_will_hit_zero_first crossing_time_info &&
  (value_or (t_char_speed crossing_time_info) infinity <? damping_time info) &&
  negb (delta_radius_is_in_danger info crossing_time_info).

(** The object behind [info] after the call, and the returned string. *)
Definition update (info : Info) (update_args : StateUpdateArgs)
    (crossing_time_info : CrossingTimeInfo) : Info * Diagnostic :=
  if char_speed_is_in_danger info crossing_time_info then
    let ss := [Text "Current state DeltaR. Char speed in danger."] in
    let '(info, ss) :=
      if has_value (t_comoving_char_speed crossing_time_info) ||
         (min_comoving_char_speed update_args <? 0.0)
      then
        let info :=
          {| state := AhSpeed;
             damping_time := damping_time info;
             target_char_speed :=
               Some (min_char_speed update_args * non_oscillation_factor);
             suggested_time_scale := suggested_time_scale info;
             discontinuous_change_has_occurred := true |} in
        (info,
         ss ++ [Text (" Switching to AhSpeed." ++ nl);
                Text " Target char speed = ";
                OptNum (target_char_speed info);
                Text nl])
      else
        (info, ss ++ [Text (" Staying in DeltaR." ++ nl)]) in
    let info :=
      {| state := state info;
         damping_time := damping_time info;
         target_char_speed := target_char_speed info;
         suggested_time_scale := t_char_speed crossing_time_info;
         discontinuous_change_has_occurred :=
           discontinuous_change_has_occurred info |} in
    (info,
     ss ++ [Text " Suggested timescale = ";
            OptNum (suggested_time_scale info)])
  else if delta_radius_is_in_danger info crossing_time_info then
    let info :=
      {| state := state info;
         damping_time := damping_time info;
         target_char_speed := target_char_speed info;
         suggested_time_scale := t_delta_radius crossing_time_info;
         discontinuous_change_has_occurred :=
           discontinuous_change_has_occurred info |} in
    (info,
     [Text ("Current state DeltaR. Delta radius in danger. Staying in DeltaR." ++ nl);
      Text " Suggested timescale = ";
      OptNum (suggested_time_scale info)])
  else if (0.0 <? min_comoving_char_speed update_args) &&
          (delta_r_control_error_threshold
             <? abs (control_error_delta_r update_args))
  then
    let info :=
      {| state := state info;
         damping_time := damping_time info;
         target_char_speed := target_char_speed info;
         suggested_time_scale :=
           Some (damping_time info * delta_r_state_decrease_factor);
         discontinuous_change_has_occurred :=
           discontinuous_change_has_occurred info |} in
    (info,
     [Text "Current state DeltaR. Min comoving char speed ";
      Num (min_comoving_char_speed update_args);
      Text " > 0 and abs(control_error_delta_r) ";
      Num (abs (control_error_delta_r update_args));
      Text " > threshold ";
      Num delta_r_control_error_threshold;
      Text (". Staying in DeltaR." ++ nl);
      Text " Suggested timescale = ";
      OptNum (suggested_time_scale info)])
  else
    (info,
     [Text "Current state DeltaR. No change necessary. Staying in DeltaR."]).

(** Lines 108-111. *)
Definition control_error (info : Info)
    (control_error_args : ControlErrorArgs.t) : float :=
  ControlErrorArgs.control_error_delta_r control_error_args.

End DeltaRState.

Import DeltaRState.

(** ** Definitions used in the statements *)

(** The scenarios of the specification. *)
Module Scenario.

Definition info0 : Info :=
  {| state := DeltaR; damping_time := 10.0; target_char_speed := None;
     suggested_time_scale := None;
     discontinuous_change_has_occurred := false |}.

Definition no_crossing : CrossingTimeInfo :=
  {| t_char_speed := None; t_comoving_char_speed := None;
     t_delta_radius := None; char_speed_will_hit_zero_first := false;
     horizon_will_hit_excision_boundary_first := false |}.

(** Char speed hits zero first, at 3.0. *)
Definition char_speed_first : CrossingTimeInfo :=
  {| t_char_speed := Some 3.0; t_comoving_char_speed := None;
     t_delta_radius := None; char_speed_will_hit_zero_first := true;
     horizon_will_hit_excision_boundary_first := false |}.

(** The horizon hits the excision boundary first, at 5.0. *)
Definition horizon_first : CrossingTimeInfo :=
  {| t_char_speed := None; t_comoving_char_speed := None;
     t_delta_radius := Some 5.0; char_speed_will_hit_zero_first := false;
     horizon_will_hit_excision_boundary_first := true |}.

Definition args_negative_comoving : StateUpdateArgs :=
  {| min_char_speed := -0.2; min_comoving_char_speed := -0.1;
     control_error_delta_r := 0.0 |}.

Definition args_large_error : StateUpdateArgs :=
  {| min_char_speed := 0.5; min_comoving_char_speed := 0.5;
     control_error_delta_r := 2e-3 |}.

Definition args_error_at_threshold : StateUpdateArgs :=
  {| min_char_speed := 0.5; min_comoving_char_speed := 0.5;
     control_error_delta_r := 1e-3 |}.

Definition args_quiet : StateUpdateArgs :=
  {| min_char_speed := 0.5; min_comoving_char_speed := 0.5;
     control_error_delta_r := 0.0 |}.


End Scenario.

(** The test of lines 54-55. *)
Definition comoving_char_speed_unsafe
    (update_args : StateUpdateArgs) (crossing_time_info : CrossingTimeInfo)
    : bool :=
  has_value (t_comoving_char_speed crossing_time_info) ||
  (min_comoving_char_speed update_args <? 0.0).

(** The test of lines 84-86. *)
Definition shrink_condition (update_args : StateUpdateArgs) : bool :=
  (0.0 <? min_comoving_char_speed update_args) &&
  (1e-3 <? abs (control_error_delta_r update_args)).

(** The shrink branch is recognised by the opening words of its
    diagnostic. *)
Definition shrink_branch_taken (ss : Diagnostic) : bool :=
  match ss with
  | Text s :: _ =>
      String.eqb s "Current state DeltaR. Min comoving char speed "
  | _ => false
  end.

(** [update] assigns [suggested_time_scale] in its first three branches. *)
Definition assigns_suggested_time_scale (info : Info)
    (update_args : StateUpdateArgs) (crossing_time_info : CrossingTimeInfo)
    : bool :=
  char_speed_is_in_danger info crossing_time_info ||
  delta_radius_is_in_danger info crossing_time_info ||
  shrink_condition update_args.

(** A double that is positive and finite. *)
Definition positive_finite (x : float) : bool :=
  (0 <? x) && (x <? infinity).

(** The invariant of [Info] on [suggested_time_scale], and the condition on
    the crossing times: absent, or positive and finite. *)
Definition valid_time_scale (o : option float) : bool :=
  match o with
  | Some s => positive_finite s
  | None => true
  end.

(** [0.99] is [c99 * 2^-53], with [c99 = 0x1fae147ae147ae]. *)
Definition c99 : positive := 8917127262193582.

Definition x99 : spec_float := S754_finite false c99 (-53).

(** The least double that the product with [0.99] decreases:
    [50 * 2^-1074], about [2.47e-322]. *)
Definition least_shrinking : float := 0x32p-1074.

(** The product of [m * 2^-1074] and [0.99], checked by evaluation for a
    small [m]: it is [m' * 2^-1074] with [m' = m] below [m = 50] and
    [m' < m] from [m = 50] on. *)
Definition small_product_ok (m : positive) : bool :=
  match SF64mul (S754_finite false m (-1074)) x99 with
  | S754_finite false m' e' =>
      (e' =? -1074)%Z &&
      (if (m <? 50)%positive then (m' =? m)%positive else (m' <? m)%positive)
  | _ => false
  end.

(** The condition under which lines 65-68 run: the char speed is in danger
    and the test of lines 54-55 succeeds. *)
Definition switches_to_AhSpeed (info : Info)
    (update_args : StateUpdateArgs) (crossing_time_info : CrossingTimeInfo)
    : bool :=
  char_speed_is_in_danger info crossing_time_info &&
  comoving_char_speed_unsafe update_args crossing_time_info.

(** The arguments with the control error of the opposite sign. *)
Definition negate_control_error (update_args : StateUpdateArgs)
    : StateUpdateArgs :=
  {| min_char_speed := min_char_speed update_args;
     min_comoving_char_speed := min_comoving_char_speed update_args;
     control_error_delta_r := - control_error_delta_r update_args |}.

(** ** [domain::CoordinateMaps::TimeDependent::Shape]

    The functions of [src/Domain/CoordinateMaps/TimeDependent/Shape.hpp]
    whose bodies are in the header, at [T = double].  Of the members of the
    class only [center_] is read by them; a [std::array<double, 3>] is a
    triple. *)

Module Shape.

Definition array3 : Type := (float * float * float)%type.

Record t : Type := Build {
  center_ : array3
}.

(** [Shape() = default] (line 163), with the initialiser [center_{}] of
    line 207. *)
Definition default : t := {| center_ := (0.0, 0.0, 0.0) |}.

(** Lines 214-219. *)
Definition center_coordinates (self : t) (coords : array3) : array3 :=
  let '(coords0, coords1, coords2) := coords in
  let '(center0, center1, center2) := center_ self in
  (coords0 - center0, coords1 - center1, coords2 - center2).

End Shape.

(** A crossing time that is absent or not negative. *)
Definition nonnegative_time (o : option float) : bool :=
  match o with
  | Some t => 0 <=? t
  | None => true
  end.

(** ** Rounding of the product with [0.99]

    [mul_spec] gives the product of two doubles as [SFmul] of the decoded
    numbers, which rounds the exact product of the significands with
    [binary_round_aux].  For the factor [0.99] the rounded significand lies
    between the quotient of the shift and its successor, which is enough to
    compare the product with the other factor. *)

Module Rounding.

Local Open Scope Z_scope.

Lemma fexp_binary64 (x : Z) : fexp prec emax x = Z.max (x - 53) (-1074).
Proof. reflexivity. Qed.

Lemma pow2_nonpos (k : Z) : k <= 0 -> 2 ^ k <= 1.
Proof.
  intros Hk. destruct k as [ | p | p]; [reflexivity | lia | ].
  rewrite Z.pow_neg_r; lia.
Qed.

Lemma pow2_pred (k : Z) : 0 < k -> 2 ^ k = 2 * 2 ^ (k - 1).
Proof.
  intros Hk. rewrite <- Z.pow_succ_r by lia. f_equal. lia.
Qed.

(** [digits2_pos p] is the number of binary digits of [p]. *)
Lemma digits2_pos_le (p : positive) :
  forall k : Z, Z.pos (digits2_pos p) <= k <-> Z.pos p < 2 ^ k.
Proof.
  induction p as [p IH | p IH | ]; intros k; simpl digits2_pos;
    try rewrite Pos2Z.inj_succ;
    (destruct (Z.le_gt_cases k 0) as [Hk | Hk];
     [pose proof (pow2_nonpos k Hk); split; lia | ]);
    rewrite (pow2_pred k Hk).
  - specialize (IH (k - 1)). lia.
  - specialize (IH (k - 1)). lia.
  - assert (0 < 2 ^ (k - 1)) by (apply Z.pow_pos_nonneg; lia). lia.
Qed.

Lemma shr_1_m (r : shr_record) :
  0 <= shr_m r -> shr_m (shr_1 r) = shr_m r / 2.
Proof.
  destruct r as [m rb sb]; simpl. intros Hm.
  destruct m as [ | [p | p | ] | p]; simpl shr_m.
  - reflexivity.
  - rewrite Pos2Z.inj_xI. apply Z.div_unique with 1; lia.
  - rewrite Pos2Z.inj_xO. apply Z.div_unique with 0; lia.
  - reflexivity.
  - lia.
Qed.

Lemma iter_pos_shr_1_m (p : positive) :
  forall r : shr_record,
    0 <= shr_m r ->
    shr_m (iter_pos shr_1 p r) = shr_m r / 2 ^ Z.pos p.
Proof.
  induction p as [p IH | p IH | ]; intros r Hr; simpl iter_pos.
  - assert (H1 : 0 <= shr_m (shr_1 r))
      by (rewrite shr_1_m by exact Hr; apply Z.div_pos; lia).
    assert (H2 : 0 <= shr_m (iter_pos shr_1 p (shr_1 r)))
      by (rewrite IH by exact H1; apply Z.div_pos; [exact H1 | lia]).
    rewrite (IH _ H2), (IH _ H1), (shr_1_m _ Hr).
    rewrite !Zdiv_Zdiv by lia. f_equal.
    replace (Z.pos p~1) with (1 + Z.pos p + Z.pos p) by lia.
    rewrite !Z.pow_add_r by lia. change (2 ^ 1) with 2. ring.
  - assert (H1 : 0 <= shr_m (iter_pos shr_1 p r))
      by (rewrite IH by exact Hr; apply Z.div_pos; [exact Hr | lia]).
    rewrite (IH _ H1), (IH _ Hr).
    rewrite !Zdiv_Zdiv by lia. f_equal.
    replace (Z.pos p~0) with (Z.pos p + Z.pos p) by lia.
    rewrite Z.pow_add_r by lia. reflexivity.
  - rewrite (shr_1_m _ Hr). reflexivity.
Qed.

Lemma round_nearest_even_bounds (z : Z) (l : location) :
  z <= round_nearest_even z l <= z + 1.
Proof.
  destruct l as [ | [ | | ]]; simpl; try lia.
  destruct (Z.even z); lia.
Qed.

Lemma shr_pos (r : shr_record) (e : Z) (p : positive) :
  shr r e (Z.pos p) = (iter_pos shr_1 p r, e + Z.pos p).
Proof. reflexivity. Qed.

Lemma shr_nonpos (r : shr_record) (e n : Z) : n <= 0 -> shr r e n = (r, e).
Proof. destruct n; [reflexivity | lia | reflexivity]. Qed.

Lemma binary_round_aux_steps (sx : bool) (mx ex : Z) (lx : location)
    (mrs1 mrs2 : shr_record) (e1 e2 : Z) :
  shr_fexp prec emax mx ex lx = (mrs1, e1) ->
  shr_fexp prec emax
    (round_nearest_even (shr_m mrs1) (loc_of_shr_record mrs1)) e1 loc_Exact
    = (mrs2, e2) ->
  binary_round_aux prec emax sx mx ex lx =
  match shr_m mrs2 with
  | Z0 => S754_zero sx
  | Z.pos m =>
      if e2 <=? 971 then S754_finite sx m e2 else S754_infinity sx
  | Z.neg _ => S754_nan
  end.
Proof.
  intros H1 H2. unfold binary_round_aux. rewrite H1, H2. reflexivity.
Qed.

(** A significand of at most 53 digits at an exponent of at least [-1074]
    is not shifted. *)
Lemma shr_fexp_fits (r : positive) (e : Z) :
  Z.pos r < 9007199254740992 -> -1074 <= e ->
  shr_fexp prec emax (Z.pos r) e loc_Exact =
  ({| shr_m := Z.pos r; shr_r := false; shr_s := false |}, e).
Proof.
  intros Hr He. unfold shr_fexp. rewrite fexp_binary64. simpl Zdigits2.
  change 9007199254740992 with (2 ^ 53) in Hr.
  apply (digits2_pos_le r 53) in Hr.
  rewrite shr_nonpos by lia. reflexivity.
Qed.

(** The first shift of the exact product [m * c99] at exponent [e - 53]
    drops 53 bits, or 52 when the product has 105 digits and [e] is above
    the least exponent. *)
Lemma shr_fexp_099 (m : positive) (e : Z) :
  -1074 <= e <= 971 ->
  Z.pos m < 9007199254740992 ->
  e = -1074 \/ 4503599627370496 <= Z.pos m ->
  exists n : positive,
    shr_fexp prec emax (Z.pos (m * c99)) (e + -53) loc_Exact =
    (iter_pos shr_1 n
       {| shr_m := Z.pos (m * c99); shr_r := false; shr_s := false |},
     e + -53 + Z.pos n) /\
    (n = 53%positive \/
     n = 52%positive /\ -1073 <= e /\ 2 ^ 52 <= Z.pos m /\
     Z.pos m * Z.pos c99 < 2 ^ 105).
Proof.
  intros He Hm53 Hnorm.
  assert (HM : Z.pos (m * c99) = Z.pos m * 8917127262193582)
    by (rewrite Pos2Z.inj_mul; reflexivity).
  assert (Hd106 := digits2_pos_le (m * c99) 106).
  assert (Hd105 := digits2_pos_le (m * c99) 105).
  assert (Hd104 := digits2_pos_le (m * c99) 104).
  rewrite HM in Hd106, Hd105, Hd104.
  change (2 ^ 53) with 9007199254740992 in *.
  change (2 ^ 52) with 4503599627370496 in *.
  change (2 ^ 104) with 20282409603651670423947251286016 in *.
  change (2 ^ 105) with 40564819207303340847894502572032 in *.
  change (2 ^ 106) with 81129638414606681695789005144064 in *.
  unfold shr_fexp. rewrite fexp_binary64.
  change (Zdigits2 (Z.pos (m * c99))) with (Z.pos (digits2_pos (m * c99))).
  set (dM := Z.pos (digits2_pos (m * c99))) in *.
  assert (Hn : Z.max (dM + (e + -53) - 53) (-1074) - (e + -53) = 53 \/
               Z.max (dM + (e + -53) - 53) (-1074) - (e + -53) = 52 /\
               -1073 <= e /\ 4503599627370496 <= Z.pos m /\
               Z.pos m * 8917127262193582
                 < 40564819207303340847894502572032) by lia.
  destruct Hn as [Hn | [Hn H]]; rewrite Hn, shr_pos.
  - exists 53%positive. split; [reflexivity | left; reflexivity].
  - exists 52%positive. split; [reflexivity | right].
    split; [reflexivity | exact H].
Qed.

(** The rounded product of a valid positive [m * 2^e], [2 <= m], and [0.99]
    is a positive finite number that is not above [m * 2^e], and is below it
    from [m = 101] on. *)
Lemma round_099 (m : positive) (e : Z) :
  -1074 <= e <= 971 ->
  Z.pos m < 9007199254740992 ->
  e = -1074 \/ 4503599627370496 <= Z.pos m ->
  2 <= Z.pos m ->
  exists (m' : positive) (e' : Z),
    binary_round_aux prec emax false (Z.pos (m * c99)) (e + -53) loc_Exact
      = S754_finite false m' e' /\
    (e' < e \/ e' = e /\ Z.pos m' <= Z.pos m) /\
    (101 <= Z.pos m -> e' < e \/ e' = e /\ Z.pos m' < Z.pos m).
Proof.
  intros He Hm53 Hnorm Hm2.
  destruct (shr_fexp_099 m e He Hm53 Hnorm) as [n [Hshr Hn]].
  set (r1 := iter_pos shr_1 n
               {| shr_m := Z.pos (m * c99); shr_r := false; shr_s := false |})
    in *.
  assert (Hz : shr_m r1 = Z.pos m * 8917127262193582 / 2 ^ Z.pos n).
  { unfold r1. rewrite iter_pos_shr_1_m by (simpl; lia). simpl shr_m.
    rewrite Pos2Z.inj_mul. reflexivity. }
  pose proof (round_nearest_even_bounds (shr_m r1) (loc_of_shr_record r1))
    as HR.
  remember (round_nearest_even (shr_m r1) (loc_of_shr_record r1)) as R
    eqn:HeqR.
  rewrite Hz in HR. clear Hz.
  change (Z.pos c99) with 8917127262193582 in Hn.
  change (2 ^ 53) with 9007199254740992 in *.
  change (2 ^ 52) with 4503599627370496 in *.
  change (2 ^ 105) with 40564819207303340847894502572032 in *.
  destruct Hn as [-> | [-> [He' [Hm52 HM105]]]].
  - change (2 ^ 53) with 9007199254740992 in HR.
    assert (HRpos : 1 <= R <= Z.pos m)
      by (Z.to_euclidean_division_equations; lia).
    assert (HR101 : 101 <= Z.pos m -> R < Z.pos m)
      by (Z.to_euclidean_division_equations; lia).
    clear HR.
    destruct R as [ | r | r]; [lia | | lia].
    assert (Hshr2 := shr_fexp_fits r (e + -53 + 53) ltac:(lia) ltac:(lia)).
    rewrite HeqR in Hshr2 at 1.
    rewrite (binary_round_aux_steps _ _ _ _ _ _ _ _ Hshr Hshr2).
    simpl shr_m.
    replace (e + -53 + 53 <=? 971) with true by (symmetry; apply Z.leb_le; lia).
    exists r, (e + -53 + 53). split; [reflexivity | ]. split.
    + right. lia.
    + intros H101. right. lia.
  - change (2 ^ 52) with 4503599627370496 in HR.
    assert (HRb : 4503599627370496 <= R <= 9007199254740992)
      by (Z.to_euclidean_division_equations; lia).
    assert (HR53 : R = 9007199254740992 -> 4503599627370496 < Z.pos m)
      by (Z.to_euclidean_division_equations; lia).
    clear HR.
    destruct (Z.eq_dec R 9007199254740992) as [HReq | HRne].
    + assert (Hshr2 : shr_fexp prec emax R (e + -53 + 52) loc_Exact =
                      ({| shr_m := 4503599627370496; shr_r := false;
                          shr_s := false |}, e + -53 + 52 + 1)).
      { rewrite HReq. unfold shr_fexp. rewrite fexp_binary64.
        change (Zdigits2 9007199254740992) with 54.
        replace (Z.max (54 + (e + -53 + 52) - 53) (-1074) - (e + -53 + 52))
          with 1 by lia.
        reflexivity. }
      rewrite HeqR in Hshr2.
      rewrite (binary_round_aux_steps _ _ _ _ _ _ _ _ Hshr Hshr2).
      simpl shr_m.
      replace (e + -53 + 52 + 1 <=? 971) with true
        by (symmetry; apply Z.leb_le; lia).
      exists 4503599627370496%positive, (e + -53 + 52 + 1).
      split; [reflexivity | ]. split.
      * right. lia.
      * intros _. right. lia.
    + destruct R as [ | r | r]; [lia | | lia].
      assert (Hshr2 := shr_fexp_fits r (e + -53 + 52) ltac:(lia) ltac:(lia)).
      rewrite HeqR in Hshr2 at 1.
      rewrite (binary_round_aux_steps _ _ _ _ _ _ _ _ Hshr Hshr2).
      simpl shr_m.
      replace (e + -53 + 52 <=? 971) with true
        by (symmetry; apply Z.leb_le; lia).
      exists r, (e + -53 + 52). split; [reflexivity | ]. split.
      * left. lia.
      * intros _. left. lia.
Qed.


Lemma small_product_ok_upto_100 (n : nat) :
  (1 <= n <= 100)%nat -> small_product_ok (Pos.of_nat n) = true.
Proof.
  intros Hn. destruct n as [ | n]; [lia | ].
  do 100 (destruct n as [ | n]; [vm_compute; reflexivity | ]).
  lia.
Qed.

(** The significand and exponent of a valid finite binary64 number. *)
Lemma bounded_binary64 (m : positive) (e : Z) :
  bounded prec emax m e = true ->
  -1074 <= e <= 971 /\
  Z.pos m < 9007199254740992 /\
  (e = -1074 \/ 4503599627370496 <= Z.pos m).
Proof.
  unfold bounded, canonical_mantissa. rewrite andb_true_iff, fexp_binary64.
  rewrite Z.eqb_eq, Z.leb_le. change (emax - prec) with 971.
  intros [Hc He].
  pose proof (digits2_pos_le m 53) as H53.
  pose proof (digits2_pos_le m 52) as H52.
  change (2 ^ 53) with 9007199254740992 in H53.
  change (2 ^ 52) with 4503599627370496 in H52.
  lia.
Qed.

(** The product of a valid positive finite number and [0.99]. *)
Lemma SF64mul_099 (m : positive) (e : Z) :
  bounded prec emax m e = true ->
  exists (m' : positive) (e' : Z),
    SF64mul (S754_finite false m e) x99 = S754_finite false m' e' /\
    (e' < e \/ e' = e /\ Z.pos m' <= Z.pos m) /\
    (e = -1074 /\ Z.pos m < 50 -> e' = e /\ m' = m) /\
    ((e = -1074 -> 50 <= Z.pos m) ->
     e' < e \/ e' = e /\ Z.pos m' < Z.pos m).
Proof.
  intros Hb. destruct (bounded_binary64 m e Hb) as [He [Hm53 Hnorm]].
  destruct (Z.le_gt_cases (Z.pos m) 100) as [Hsmall | Hlarge].
  - assert (He' : e = -1074) by lia. subst e.
    assert (Hok := small_product_ok_upto_100 (Pos.to_nat m) ltac:(lia)).
    rewrite Pos2Nat.id in Hok. unfold small_product_ok in Hok.
    destruct (SF64mul (S754_finite false m (-1074)) x99)
      as [s | s | | s m' e']; try discriminate.
    destruct s; [discriminate | ].
    rewrite andb_true_iff, Z.eqb_eq in Hok. destruct Hok as [He' Hm'].
    exists m', e'. split; [reflexivity | ].
    destruct (Pos.ltb_spec m 50) as [H50 | H50].
    + apply Pos.eqb_eq in Hm'. subst m'. repeat split; lia.
    + apply Pos.ltb_lt in Hm'. repeat split; lia.
  - destruct (round_099 m e He Hm53 Hnorm ltac:(lia))
      as [m' [e' [Hmul [Hle Hlt]]]].
    exists m', e'. split; [exact Hmul | ]. split; [exact Hle | ].
    split; [lia | ]. intros _. apply Hlt. lia.
Qed.

End Rounding.

(** ** Order facts on binary64

    The comparisons are specified by [SFcompare] on the decoded numbers
    ([ltb_spec], [leb_spec]); the facts below are read off that
    specification. *)

Module FloatOrder.

Import Rounding.
Local Open Scope Z_scope.
Local Open Scope float_scope.

Lemma SFcompare_antisym (x y : spec_float) :
  SFcompare y x = option_map CompOpp (SFcompare x y).
Proof.
  destruct x as [sx|sx| |sx mx ex], y as [sy|sy| |sy my ey]; simpl;
    try reflexivity;
    try (destruct sx; reflexivity); try (destruct sy; reflexivity);
    try (destruct sx, sy; reflexivity).
  destruct sx, sy; simpl; try reflexivity;
    rewrite (Z.compare_antisym ex ey);
    destruct (ex ?= ey)%Z; simpl; try reflexivity;
    rewrite (Pos.compare_cont_antisym mx my Eq); simpl;
    try rewrite CompOpp_involutive; reflexivity.
Qed.

(** Nothing is above [infinity]: with an absent crossing time, the
    comparisons of lines 41-43 and 46-47 are false. *)
Lemma ltb_infinity_l (x : float) : (infinity <? x) = false.
Proof.
  rewrite ltb_spec. change (Prim2SF infinity) with (S754_infinity false).
  unfold SFltb. destruct (Prim2SF x) as [s|s| |s m e]; simpl;
    try reflexivity; destruct s; reflexivity.
Qed.

Lemma leb_not_ltb (x y : float) : (x <=? y) = true -> (y <? x) = false.
Proof.
  rewrite leb_spec, ltb_spec. unfold SFleb, SFltb.
  rewrite (SFcompare_antisym (Prim2SF x) (Prim2SF y)).
  destruct (SFcompare (Prim2SF x) (Prim2SF y)) as [[ | | ]|]; simpl;
    congruence.
Qed.

Lemma ltb_value_or_infinity (o : option float) (y : float) :
  (value_or o infinity <? y) = true ->
  exists t, o = Some t /\ (t <? y) = true.
Proof.
  destruct o as [t|]; simpl.
  - intros H. exists t. split; [reflexivity | exact H].
  - rewrite ltb_infinity_l. discriminate.
Qed.

Lemma SFcompare_finite_pos (m1 m2 : positive) (e1 e2 : Z) :
  SFcompare (S754_finite false m1 e1) (S754_finite false m2 e2) =
  Some (match (e1 ?= e2)%Z with
        | Lt => Lt
        | Gt => Gt
        | Eq => (m1 ?= m2)%positive
        end).
Proof. reflexivity. Qed.

(** A double above zero is [infinity] or a positive finite number. *)
Lemma positive_cases (d : float) :
  (0 <? d) = true ->
  Prim2SF d = S754_infinity false \/
  exists (m : positive) (e : Z),
    Prim2SF d = S754_finite false m e /\ bounded prec emax m e = true.
Proof.
  rewrite ltb_spec. change (Prim2SF 0) with (S754_zero false).
  pose proof (Prim2SF_valid d) as Hv.
  destruct (Prim2SF d) as [s | s | | s m e]; unfold SFltb; simpl;
    try discriminate; destruct s; try discriminate; intros _.
  - left. reflexivity.
  - right. exists m, e. split; [reflexivity | exact Hv].
Qed.

Lemma mul_099_spec (d : float) :
  Prim2SF (d * 0.99) = SF64mul (Prim2SF d) x99.
Proof. rewrite mul_spec. reflexivity. Qed.

(** Multiplying a positive double by [0.99] never increases it. *)
Lemma mul_099_le (d : float) : (0 <? d) = true -> (d * 0.99 <=? d) = true.
Proof.
  intros Hd. rewrite leb_spec, mul_099_spec.
  destruct (positive_cases d Hd) as [Hinf | [m [e [Hfin Hb]]]].
  - rewrite Hinf. reflexivity.
  - rewrite Hfin.
    destruct (SF64mul_099 m e Hb) as [m' [e' [Hmul [Hle _]]]].
    rewrite Hmul. unfold SFleb. rewrite SFcompare_finite_pos.
    destruct (Z.compare_spec e' e) as [He | He | He]; try reflexivity.
    + destruct (Pos.compare_spec m' m) as [Hm | Hm | Hm]; try reflexivity.
      lia.
    + lia.
Qed.

(** It decreases a positive double exactly when the double is finite and not
    below [50 * 2^-1074]; the 49 positive doubles below that and [infinity]
    are returned as they are. *)
Lemma mul_099_lt (d : float) :
  (0 <? d) = true ->
  (d * 0.99 <? d) = (d <? infinity) && (least_shrinking <=? d).
Proof.
  intros Hd. rewrite !ltb_spec, leb_spec, mul_099_spec.
  change (Prim2SF infinity) with (S754_infinity false).
  change (Prim2SF least_shrinking) with (S754_finite false 50 (-1074)).
  destruct (positive_cases d Hd) as [Hinf | [m [e [Hfin Hb]]]].
  - rewrite Hinf. reflexivity.
  - rewrite Hfin.
    destruct (SF64mul_099 m e Hb) as [m' [e' [Hmul [_ [Heq Hlt]]]]].
    destruct (bounded_binary64 m e Hb) as [He _].
    rewrite Hmul. unfold SFltb, SFleb. rewrite !SFcompare_finite_pos.
    change (SFcompare (S754_finite false m e) (S754_infinity false))
      with (Some Lt).
    assert (Hcase : {(e = -1074 /\ Z.pos m < 50)%Z} +
                    {(e = -1074 -> 50 <= Z.pos m)%Z}).
    { destruct (Z.eq_dec e (-1074)) as [He0 | He0];
        [ | right; intros H; contradiction].
      destruct (Z_lt_le_dec (Z.pos m) 50) as [Hm | Hm];
        [left; split; assumption | right; intros _; exact Hm]. }
    destruct Hcase as [Hs | Hl].
    + destruct (Heq Hs) as [He' Hm']. destruct Hs as [He0 Hm].
      rewrite He', Hm', He0, Z.compare_refl, Pos.compare_refl.
      destruct (Pos.compare_spec 50 m); try reflexivity; lia.
    + assert (Hleft : match (e' ?= e)%Z with
                      | Lt => Lt
                      | Gt => Gt
                      | Eq => (m' ?= m)%positive
                      end = Lt).
      { destruct (Hlt Hl) as [H | [H1 H2]].
        - destruct (Z.compare_spec e' e); try reflexivity; lia.
        - rewrite H1, Z.compare_refl.
          destruct (Pos.compare_spec m' m); try reflexivity; lia. }
      rewrite Hleft.
      destruct (Z.compare_spec (-1074) e) as [He1 | He1 | He1];
        [ | reflexivity | lia].
      destruct (Pos.compare_spec 50 m) as [Hm | Hm | Hm];
        try reflexivity. symmetry in He1. specialize (Hl He1). lia.
Qed.

Lemma mul_099_positive_finite (d : float) :
  (0 <? d) = true -> (d <? infinity) = true ->
  (0 <? d * 0.99) = true /\ (d * 0.99 <? infinity) = true.
Proof.
  intros Hd Hfinite. rewrite !ltb_spec, mul_099_spec.
  rewrite ltb_spec in Hfinite.
  change (Prim2SF infinity) with (S754_infinity false) in *.
  change (Prim2SF 0) with (S754_zero false).
  destruct (positive_cases d Hd) as [Hinf | [m [e [Hfin Hb]]]].
  - rewrite Hinf in Hfinite. discriminate.
  - rewrite Hfin.
    destruct (SF64mul_099 m e Hb) as [m' [e' [Hmul _]]].
    rewrite Hmul. split; reflexivity.
Qed.

Ltac compare_cases :=
  repeat match goal with
         | |- context [(?x ?= ?y)%Z] => destruct (Z.compare_spec x y)
         | |- context [(?x ?= ?y)%positive] => destruct (Pos.compare_spec x y)
         end.

Lemma SFltb_leb_trans (a b c : spec_float) :
  SFltb a b = true -> SFleb b c = true -> SFltb a c = true.
Proof.
  unfold SFltb, SFleb.
  destruct a as [sa | sa | | sa ma ea], b as [sb | sb | | sb mb eb],
    c as [sc | sc | | sc mc ec];
    try (simpl; discriminate);
    try (destruct sa; simpl; discriminate);
    try (destruct sb; simpl; discriminate);
    try (destruct sa, sb; simpl; (discriminate || reflexivity));
    try (destruct sb, sc; simpl; (discriminate || reflexivity));
    try (destruct sa, sc; simpl; (discriminate || reflexivity));
    try (destruct sa, sb, sc; simpl; (discriminate || reflexivity)).
  all: destruct sa, sb, sc; cbn [SFcompare];
    change (Pos.compare_cont Eq) with Pos.compare;
    try discriminate; try reflexivity;
    compare_cases; simpl; intros; 
    try discriminate; try reflexivity; lia.
Qed.

Lemma ltb_leb (a b : float) : (a <? b) = true -> (a <=? b) = true.
Proof.
  rewrite ltb_spec, leb_spec. unfold SFltb, SFleb.
  destruct (SFcompare (Prim2SF a) (Prim2SF b)) as [[ | | ] | ];
    congruence.
Qed.

Lemma ltb_leb_trans (a b c : float) :
  (a <? b) = true -> (b <=? c) = true -> (a <? c) = true.
Proof. rewrite !ltb_spec, leb_spec. apply SFltb_leb_trans. Qed.

End FloatOrder.

Import FloatOrder.

(** ** The branches of [update] *)

Section Branches.

Variable info : Info.
Variable update_args : StateUpdateArgs.
Variable crossing_time_info : CrossingTimeInfo.

Let info' : Info := fst (update info update_args crossing_time_info).

Lemma char_speed_danger_time :
  char_speed_is_in_danger info crossing_time_info = true ->
  exists t, t_char_speed crossing_time_info = Some t /\
            (t <? damping_time info) = true.
Proof.
  unfold char_speed_is_in_danger. intros H.
  apply andb_true_iff in H. destruct H as [H _].
  apply andb_true_iff in H. destruct H as [_ H].
  exact (ltb_value_or_infinity _ _ H).
Qed.

Lemma delta_radius_danger_time :
  delta_radius_is_in_danger info crossing_time_info = true ->
  exists t, t_delta_radius crossing_time_info = Some t /\
            (t <? damping_time info * 0.99) = true.
Proof.
  unfold delta_radius_is_in_danger. intros H.
  apply andb_true_iff in H. destruct H as [_ H].
  exact (ltb_value_or_infinity _ _ H).
Qed.

Lemma update_switch :
  char_speed_is_in_danger info crossing_time_info = true ->
  comoving_char_speed_unsafe update_args crossing_time_info = true ->
  info' =
  {| state := AhSpeed;
     damping_time := damping_time info;
     target_char_speed := Some (min_char_speed update_args * 1.01);
     suggested_time_scale := t_char_speed crossing_time_info;
     discontinuous_change_has_occurred := true |}.
Proof.
  unfold info', update, comoving_char_speed_unsafe.
  intros -> ->. reflexivity.
Qed.

Lemma update_char_speed_stay :
  char_speed_is_in_danger info crossing_time_info = true ->
  comoving_char_speed_unsafe update_args crossing_time_info = false ->
  info' =
  {| state := state info;
     damping_time := damping_time info;
     target_char_speed := target_char_speed info;
     suggested_time_scale := t_char_speed crossing_time_info;
     discontinuous_change_has_occurred :=
       discontinuous_change_has_occurred info |}.
Proof.
  unfold info', update, comoving_char_speed_unsafe.
  intros -> ->. reflexivity.
Qed.

Lemma update_delta_radius :
  char_speed_is_in_danger info crossing_time_info = false ->
  delta_radius_is_in_danger info crossing_time_info = true ->
  info' =
  {| state := state info;
     damping_time := damping_time info;
     target_char_speed := target_char_speed info;
     suggested_time_scale := t_delta_radius crossing_time_info;
     discontinuous_change_has_occurred :=
       discontinuous_change_has_occurred info |}.
Proof.
  unfold info', update. intros -> ->. reflexivity.
Qed.

Lemma update_shrink :
  char_speed_is_in_danger info crossing_time_info = false ->
  delta_radius_is_in_danger info crossing_time_info = false ->
  shrink_condition update_args = true ->
  info' =
  {| state := state info;
     damping_time := damping_time info;
     target_char_speed := target_char_speed info;
     suggested_time_scale := Some (damping_time info * 0.99);
     discontinuous_change_has_occurred :=
       discontinuous_change_has_occurred info |}.
Proof.
  unfold info', update, shrink_condition. intros -> -> H.
  change delta_r_control_error_threshold with 1e-3.
  rewrite H. reflexivity.
Qed.

Lemma update_no_change :
  char_speed_is_in_danger info crossing_time_info = false ->
  delta_radius_is_in_danger info crossing_time_info = false ->
  shrink_condition update_args = false ->
  update info update_args crossing_time_info =
  (info,
   [Text "Current state DeltaR. No change necessary. Staying in DeltaR."]).
Proof.
  unfold update, shrink_condition. intros -> -> H.
  change delta_r_control_error_threshold with 1e-3.
  rewrite H. reflexivity.
Qed.

End Branches.

(** ** The claims *)

(** C1: with char speed in danger and the comoving char speed predicted to
    cross zero or already negative, [update] switches to [AhSpeed], sets the
    target char speed to [min_char_speed * 1.01], raises
    [discontinuous_change_has_occurred] and suggests the time at which the
    char speed is predicted to cross zero, which is present. *)
Theorem update_switches_to_AhSpeed
    (info : Info) (args : StateUpdateArgs) (c : CrossingTimeInfo) :
  char_speed_is_in_danger info c = true ->
  has_value (t_comoving_char_speed c) = true \/
  (min_comoving_char_speed args <? 0.0) = true ->
  let info' := fst (update info args c) in
  state info' = AhSpeed /\
  target_char_speed info' = Some (min_char_speed args * 1.01) /\
  discontinuous_change_has_occurred info' = true /\
  suggested_time_scale info' = t_char_speed c /\
  exists t, t_char_speed c = Some t.
Proof.
  intros Hdanger Hcomoving info'.
  assert (Hunsafe : comoving_char_speed_unsafe args c = true).
  { unfold comoving_char_speed_unsafe.
    destruct Hcomoving as [H | H]; rewrite H;
      [reflexivity | apply orb_true_r]. }
  unfold info'. rewrite (update_switch info args c Hdanger Hunsafe). simpl.
  repeat split.
  destruct (char_speed_danger_time info c Hdanger) as [t [Ht _]].
  exists t. exact Ht.
Qed.

Lemma update_switches_to_AhSpeed_scenario :
  char_speed_is_in_danger Scenario.info0 Scenario.char_speed_first = true /\
  fst (update Scenario.info0 Scenario.args_negative_comoving
         Scenario.char_speed_first) =
  {| state := AhSpeed; damping_time := 10.0;
     target_char_speed := Some (-0.202);
     suggested_time_scale := Some 3.0;
     discontinuous_change_has_occurred := true |} /\
  let info' := fst (update Scenario.info0 Scenario.args_negative_comoving
                      Scenario.char_speed_first) in
  state info' = AhSpeed /\
  target_char_speed info' = Some (-0.2 * 1.01) /\
  discontinuous_change_has_occurred info' = true /\
  suggested_time_scale info' = Some 3.0 /\
  exists t, Some 3.0 = Some t.
Proof.
  split; [reflexivity | split; [reflexivity | ]].
  apply (update_switches_to_AhSpeed Scenario.info0
           Scenario.args_negative_comoving Scenario.char_speed_first).
  - reflexivity.
  - right. reflexivity.
Defined.

(** C2: the two danger flags are the conjunctions of lines 39-48, an absent
    crossing time counting as [infinity], which is below no double: a flag
    is raised only for a crossing time that is present. *)
Theorem danger_flags_spec (info : Info) (c : CrossingTimeInfo) :
  (delta_radius_is_in_danger info c = true <->
   horizon_will_hit_excision_boundary_first c = true /\
   (value_or (t_delta_radius c) infinity <? damping_time info * 0.99) = true)
  /\
  (char_speed_is_in_danger info c = true <->
   char_speed_will_hit_zero_first c = true /\
   (value_or (t_char_speed c) infinity <? damping_time info) = true /\
   delta_radius_is_in_danger info c = false) /\
  (t_delta_radius c = None -> delta_radius_is_in_danger info c = false) /\
  (t_char_speed c = None -> char_speed_is_in_danger info c = false).
Proof.
  split; [ | split; [ | split]].
  - unfold delta_radius_is_in_danger. rewrite andb_true_iff. reflexivity.
  - unfold char_speed_is_in_danger.
    rewrite !andb_true_iff, negb_true_iff. tauto.
  - intros Hnone. unfold delta_radius_is_in_danger. rewrite Hnone. simpl.
    rewrite ltb_infinity_l. apply andb_false_r.
  - intros Hnone. unfold char_speed_is_in_danger. rewrite Hnone. simpl.
    rewrite ltb_infinity_l, andb_false_r. reflexivity.
Qed.

(** C3: the two danger flags are never both true. *)
Theorem danger_flags_exclusive (info : Info) (c : CrossingTimeInfo) :
  delta_radius_is_in_danger info c && char_speed_is_in_danger info c = false.
Proof.
  unfold char_speed_is_in_danger.
  destruct (delta_radius_is_in_danger info c); simpl.
  - rewrite andb_false_r. reflexivity.
  - reflexivity.
Qed.

(** C4: with neither flag raised and the comoving char speed non-positive
    or the control error within the threshold, [update] changes nothing in
    [info]: the state, the suggested time scale, the discontinuous-change
    flag and the target char speed are the ones before the call. *)
Theorem update_no_danger_frame
    (info : Info) (args : StateUpdateArgs) (c : CrossingTimeInfo) :
  delta_radius_is_in_danger info c = false ->
  char_speed_is_in_danger info c = false ->
  (min_comoving_char_speed args <=? 0.0) = true \/
  (abs (control_error_delta_r args) <=? 1e-3) = true ->
  let info' := fst (update info args c) in
  state info' = state info /\
  suggested_time_scale info' = suggested_time_scale info /\
  discontinuous_change_has_occurred info' =
    discontinuous_change_has_occurred info /\
  target_char_speed info' = target_char_speed info.
Proof.
  intros Hr Hc Hquiet info'.
  assert (Hshrink : shrink_condition args = false).
  { unfold shrink_condition. apply andb_false_iff.
    destruct Hquiet as [H | H]; [left | right]; exact (leb_not_ltb _ _ H). }
  unfold info'. rewrite (update_no_change info args c Hc Hr Hshrink).
  simpl. repeat split.
Qed.

Lemma update_no_danger_frame_scenario :
  delta_radius_is_in_danger Scenario.info0 Scenario.no_crossing = false /\
  char_speed_is_in_danger Scenario.info0 Scenario.no_crossing = false /\
  (abs (control_error_delta_r Scenario.args_error_at_threshold) <=? 1e-3)
    = true /\
  let info' := fst (update Scenario.info0 Scenario.args_error_at_threshold
                      Scenario.no_crossing) in
  state info' = DeltaR /\
  suggested_time_scale info' = None /\
  discontinuous_change_has_occurred info' = false /\
  target_char_speed info' = None.
Proof.
  split; [reflexivity | split; [reflexivity | split; [reflexivity | ]]].
  apply (update_no_danger_frame Scenario.info0
           Scenario.args_error_at_threshold Scenario.no_crossing).
  - reflexivity.
  - reflexivity.
  - right. reflexivity.
Defined.

(** C5: with neither flag raised, the shrink branch is taken exactly when
    the comoving char speed is positive and the absolute control error is
    strictly above [1e-3] (an error of exactly [1e-3] does not take it);
    when it is taken the state stays and the suggested time scale is
    [damping_time * 0.99]. *)
Theorem update_shrink_branch
    (info : Info) (args : StateUpdateArgs) (c : CrossingTimeInfo) :
  delta_radius_is_in_danger info c = false ->
  char_speed_is_in_danger info c = false ->
  let info' := fst (update info args c) in
  let ss := snd (update info args c) in
  (shrink_branch_taken ss = true <->
   (0.0 <? min_comoving_char_speed args) = true /\
   (1e-3 <? abs (control_error_delta_r args)) = true) /\
  (abs (control_error_delta_r args) = 1e-3 -> shrink_branch_taken ss = false)
  /\
  (shrink_branch_taken ss = true ->
   state info' = state info /\
   suggested_time_scale info' = Some (damping_time info * 0.99)).
Proof.
  intros Hr Hc info' ss.
  assert (Htaken : shrink_branch_taken ss = shrink_condition args).
  { unfold ss, update. rewrite Hc, Hr. unfold shrink_condition.
    change delta_r_control_error_threshold with 1e-3.
    destruct ((0.0 <? min_comoving_char_speed args) &&
              (1e-3 <? abs (control_error_delta_r args))); reflexivity. }
  rewrite Htaken. split; [ | split].
  - unfold shrink_condition. apply andb_true_iff.
  - intros Heq. unfold shrink_condition. rewrite Heq.
    apply andb_false_r.
  - intros Hshrink. unfold info'.
    rewrite (update_shrink info args c Hc Hr Hshrink). split; reflexivity.
Qed.

Lemma update_shrink_branch_scenario :
  delta_radius_is_in_danger Scenario.info0 Scenario.no_crossing = false /\
  char_speed_is_in_danger Scenario.info0 Scenario.no_crossing = false /\
  shrink_branch_taken
    (snd (update Scenario.info0 Scenario.args_large_error
            Scenario.no_crossing)) = true /\
  state (fst (update Scenario.info0 Scenario.args_large_error
                Scenario.no_crossing)) = DeltaR /\
  suggested_time_scale
    (fst (update Scenario.info0 Scenario.args_large_error
            Scenario.no_crossing)) = Some 9.9.
Proof.
  split; [reflexivity | split; [reflexivity | split; [reflexivity | ]]].
  apply (update_shrink_branch Scenario.info0 Scenario.args_large_error
           Scenario.no_crossing); reflexivity.
Defined.

(** At the threshold itself nothing is changed. *)
Example update_error_at_threshold :
  update Scenario.info0 Scenario.args_error_at_threshold Scenario.no_crossing
  = (Scenario.info0,
     [Text "Current state DeltaR. No change necessary. Staying in DeltaR."]).
Proof. reflexivity. Qed.

(** C6: with the delta radius in danger and the char speed not, the state
    stays and the suggested time scale is the time at which the horizon is
    predicted to reach the excision boundary, which is present. *)
Theorem update_delta_radius_in_danger
    (info : Info) (args : StateUpdateArgs) (c : CrossingTimeInfo) :
  delta_radius_is_in_danger info c = true ->
  char_speed_is_in_danger info c = false ->
  let info' := fst (update info args c) in
  state info' = state info /\
  suggested_time_scale info' = t_delta_radius c /\
  exists t, t_delta_radius c = Some t.
Proof.
  intros Hr Hc info'. unfold info'.
  rewrite (update_delta_radius info args c Hc Hr). simpl.
  repeat split.
  destruct (delta_radius_danger_time info c Hr) as [t [Ht _]].
  exists t. exact Ht.
Qed.

Lemma update_delta_radius_in_danger_scenario :
  delta_radius_is_in_danger Scenario.info0 Scenario.horizon_first = true /\
  char_speed_is_in_danger Scenario.info0 Scenario.horizon_first = false /\
  let info' := fst (update Scenario.info0 Scenario.args_quiet
                      Scenario.horizon_first) in
  state info' = DeltaR /\
  suggested_time_scale info' = Some 5.0 /\
  exists t, Some 5.0 = Some t.
Proof.
  split; [reflexivity | split; [reflexivity | ]].
  apply (update_delta_radius_in_danger Scenario.info0 Scenario.args_quiet
           Scenario.horizon_first); reflexivity.
Defined.

(** C7: with the char speed in danger, no predicted zero crossing of the
    comoving char speed and a comoving char speed that is not negative, the
    state stays, the discontinuous-change flag and the target char speed are
    left as they were, and the suggested time scale is the time at which
    the char speed is predicted to cross zero. *)
Theorem update_char_speed_in_danger_stays
    (info : Info) (args : StateUpdateArgs) (c : CrossingTimeInfo) :
  char_speed_is_in_danger info c = true ->
  t_comoving_char_speed c = None ->
  (0.0 <=? min_comoving_char_speed args) = true ->
  let info' := fst (update info args c) in
  state info' = state info /\
  discontinuous_change_has_occurred info' =
    discontinuous_change_has_occurred info /\
  target_char_speed info' = target_char_speed info /\
  suggested_time_scale info' = t_char_speed c /\
  exists t, t_char_speed c = Some t.
Proof.
  intros Hc Hnone Hpos info'.
  assert (Hsafe : comoving_char_speed_unsafe args c = false).
  { unfold comoving_char_speed_unsafe. rewrite Hnone. simpl.
    exact (leb_not_ltb _ _ Hpos). }
  unfold info'. rewrite (update_char_speed_stay info args c Hc Hsafe). simpl.
  repeat split.
  destruct (char_speed_danger_time info c Hc) as [t [Ht _]].
  exists t. exact Ht.
Qed.

Lemma update_char_speed_in_danger_stays_scenario :
  char_speed_is_in_danger Scenario.info0 Scenario.char_speed_first = true /\
  (0.0 <=? min_comoving_char_speed Scenario.args_quiet) = true /\
  let info' := fst (update Scenario.info0 Scenario.args_quiet
                      Scenario.char_speed_first) in
  state info' = DeltaR /\
  discontinuous_change_has_occurred info' = false /\
  target_char_speed info' = None /\
  suggested_time_scale info' = Some 3.0 /\
  exists t, Some 3.0 = Some t.
Proof.
  split; [reflexivity | split; [reflexivity | ]].
  apply (update_char_speed_in_danger_stays Scenario.info0 Scenario.args_quiet
           Scenario.char_speed_first); reflexivity.
Defined.

(** C8: [control_error] returns [control_error_delta_r] of its arguments,
    whatever [info] is: a second call with the same arguments returns the
    same value. *)
Theorem control_error_is_delta_r
    (info : Info) (control_error_args : ControlErrorArgs.t) :
  control_error info control_error_args =
    ControlErrorArgs.control_error_delta_r control_error_args /\
  forall info2 : Info,
    control_error info2 control_error_args =
    control_error info control_error_args.
Proof.
  split.
  - reflexivity.
  - intros info2. reflexivity.
Qed.

(** C9: with a positive finite damping time and predicted crossing times
    that are positive and finite when present, [update] preserves the
    invariant of [Info]: a suggested time scale that is set is positive and
    finite. *)
Theorem update_preserves_time_scale_invariant
    (info : Info) (args : StateUpdateArgs) (c : CrossingTimeInfo) :
  positive_finite (damping_time info) = true ->
  valid_time_scale (t_char_speed c) = true ->
  valid_time_scale (t_delta_radius c) = true ->
  valid_time_scale (suggested_time_scale info) = true ->
  valid_time_scale (suggested_time_scale (fst (update info args c))) = true.
Proof.
  intros Hd Htc Htr Hinv.
  destruct (char_speed_is_in_danger info c) eqn:Hc.
  - destruct (comoving_char_speed_unsafe args c) eqn:Hu.
    + rewrite (update_switch info args c Hc Hu). exact Htc.
    + rewrite (update_char_speed_stay info args c Hc Hu). exact Htc.
  - destruct (delta_radius_is_in_danger info c) eqn:Hr.
    + rewrite (update_delta_radius info args c Hc Hr). exact Htr.
    + destruct (shrink_condition args) eqn:Hs.
      * rewrite (update_shrink info args c Hc Hr Hs). simpl.
        unfold positive_finite in *. apply andb_true_iff in Hd.
        destruct Hd as [Hpos Hfin].
        destruct (mul_099_positive_finite _ Hpos Hfin) as [H1 H2].
        rewrite H1, H2. reflexivity.
      * rewrite (update_no_change info args c Hc Hr Hs). exact Hinv.
Qed.

Lemma update_preserves_time_scale_invariant_scenario :
  positive_finite (damping_time Scenario.info0) = true /\
  valid_time_scale (t_char_speed Scenario.no_crossing) = true /\
  valid_time_scale (t_delta_radius Scenario.no_crossing) = true /\
  valid_time_scale (suggested_time_scale Scenario.info0) = true /\
  valid_time_scale
    (suggested_time_scale
       (fst (update Scenario.info0 Scenario.args_large_error
               Scenario.no_crossing))) = true.
Proof.
  repeat (split; [reflexivity | ]).
  apply (update_preserves_time_scale_invariant Scenario.info0
           Scenario.args_large_error Scenario.no_crossing); reflexivity.
Defined.


(** X13: with a positive damping time, a suggested time scale that
    [update] assigns is at most the damping time.  It is strictly below the
    damping time in the two danger branches, and in the shrink branch
    exactly when the damping time is finite and at least [50 * 2^-1074]:
    the product with [0.99] rounds back to the damping time for the 49
    least positive doubles, and it is [infinity] for [infinity].  The
    damping time is never modified. *)
Theorem update_suggests_at_most_damping_time
    (info : Info) (args : StateUpdateArgs) (c : CrossingTimeInfo) :
  (0 <? damping_time info) = true ->
  let info' := fst (update info args c) in
  damping_time info' = damping_time info /\
  (assigns_suggested_time_scale info args c = true ->
   exists s : float,
     suggested_time_scale info' = Some s /\
     (s <=? damping_time info) = true /\
     (s <? damping_time info) =
       char_speed_is_in_danger info c || delta_radius_is_in_danger info c ||
       ((damping_time info <? infinity) &&
        (least_shrinking <=? damping_time info))).
Proof.
  intros Hd info'. unfold info', assigns_suggested_time_scale.
  destruct (char_speed_is_in_danger info c) eqn:Hc.
  - destruct (char_speed_danger_time info c Hc) as [t [Ht Hlt]].
    assert (Hinfo : suggested_time_scale (fst (update info args c)) = Some t
                    /\ damping_time (fst (update info args c))
                       = damping_time info).
    { destruct (comoving_char_speed_unsafe args c) eqn:Hu.
      - rewrite (update_switch info args c Hc Hu). split; [exact Ht | ].
        reflexivity.
      - rewrite (update_char_speed_stay info args c Hc Hu).
        split; [exact Ht | reflexivity]. }
    destruct Hinfo as [Hs Hdt]. split; [exact Hdt | ]. intros _.
    exists t. split; [exact Hs | ]. split; [exact (ltb_leb _ _ Hlt) | ].
    rewrite Hlt. reflexivity.
  - destruct (delta_radius_is_in_danger info c) eqn:Hr.
    + destruct (delta_radius_danger_time info c Hr) as [t [Ht Hlt]].
      rewrite (update_delta_radius info args c Hc Hr).
      split; [reflexivity | ]. intros _.
      assert (Hlt' : (t <? damping_time info) = true)
        by exact (ltb_leb_trans _ _ _ Hlt (mul_099_le _ Hd)).
      exists t. split; [exact Ht | ]. split; [exact (ltb_leb _ _ Hlt') | ].
      rewrite Hlt'. reflexivity.
    + destruct (shrink_condition args) eqn:Hs.
      * rewrite (update_shrink info args c Hc Hr Hs).
        split; [reflexivity | ]. intros _.
        exists (damping_time info * 0.99). split; [reflexivity | ].
        split; [exact (mul_099_le _ Hd) | ].
        rewrite (mul_099_lt _ Hd). reflexivity.
      * rewrite (update_no_change info args c Hc Hr Hs).
        split; [reflexivity | ]. discriminate.
Qed.

Lemma update_suggests_at_most_damping_time_scenario :
  (0 <? damping_time Scenario.info0) = true /\
  let info' := fst (update Scenario.info0 Scenario.args_large_error
                      Scenario.no_crossing) in
  damping_time info' = 10.0 /\
  (assigns_suggested_time_scale Scenario.info0 Scenario.args_large_error
     Scenario.no_crossing = true ->
   exists s : float,
     suggested_time_scale info' = Some s /\
     (s <=? 10.0) = true /\
     (s <? 10.0) = true).
Proof.
  split; [reflexivity | ].
  apply (update_suggests_at_most_damping_time Scenario.info0
           Scenario.args_large_error Scenario.no_crossing).
  reflexivity.
Defined.

(** ** Further properties of [update] *)

(** X1: unless the char speed is in danger and the comoving char speed is
    predicted to cross zero or negative, [update] leaves the state, the
    discontinuous-change flag and the target char speed as they were. *)
Theorem update_without_switch_frame
    (info : Info) (args : StateUpdateArgs) (c : CrossingTimeInfo) :
  switches_to_AhSpeed info args c = false ->
  let info' := fst (update info args c) in
  state info' = state info /\
  discontinuous_change_has_occurred info' =
    discontinuous_change_has_occurred info /\
  target_char_speed info' = target_char_speed info.
Proof.
  intros Hsw info'. unfold switches_to_AhSpeed in Hsw. unfold info'.
  destruct (char_speed_is_in_danger info c) eqn:Hc.
  - simpl in Hsw. rewrite (update_char_speed_stay info args c Hc Hsw).
    repeat split.
  - destruct (delta_radius_is_in_danger info c) eqn:Hr.
    + rewrite (update_delta_radius info args c Hc Hr). repeat split.
    + destruct (shrink_condition args) eqn:Hs.
      * rewrite (update_shrink info args c Hc Hr Hs). repeat split.
      * rewrite (update_no_change info args c Hc Hr Hs). repeat split.
Qed.

Lemma update_without_switch_frame_scenario :
  switches_to_AhSpeed Scenario.info0 Scenario.args_negative_comoving
    Scenario.horizon_first = false /\
  let info' := fst (update Scenario.info0 Scenario.args_negative_comoving
                      Scenario.horizon_first) in
  state info' = DeltaR /\
  discontinuous_change_has_occurred info' = false /\
  target_char_speed info' = None.
Proof.
  split; [reflexivity | ].
  apply (update_without_switch_frame Scenario.info0
           Scenario.args_negative_comoving Scenario.horizon_first).
  reflexivity.
Defined.

(** X2: whatever the input, [update] keeps the damping time, replaces the
    state by [AhSpeed] or not at all, and never lowers the
    discontinuous-change flag: the flag after the call is the flag before
    it or-ed with the switch condition. *)
Theorem update_never
    (info : Info) (args : StateUpdateArgs) (c : CrossingTimeInfo) :
  let info' := fst (update info args c) in
  damping_time info' = damping_time info /\
  state info' =
    (if switches_to_AhSpeed info args c then AhSpeed else state info) /\
  discontinuous_change_has_occurred info' =
    discontinuous_change_has_occurred info || switches_to_AhSpeed info args c.
Proof.
  intros info'. unfold info', switches_to_AhSpeed.
  destruct (char_speed_is_in_danger info c) eqn:Hc.
  - destruct (comoving_char_speed_unsafe args c) eqn:Hu.
    + rewrite (update_switch info args c Hc Hu). simpl.
      rewrite orb_true_r. repeat split.
    + rewrite (update_char_speed_stay info args c Hc Hu). simpl.
      rewrite orb_false_r. repeat split.
  - simpl. rewrite orb_false_r.
    destruct (delta_radius_is_in_danger info c) eqn:Hr.
    + rewrite (update_delta_radius info args c Hc Hr). repeat split.
    + destruct (shrink_condition args) eqn:Hs.
      * rewrite (update_shrink info args c Hc Hr Hs). repeat split.
      * rewrite (update_no_change info args c Hc Hr Hs). repeat split.
Qed.

(** X3: a second call with the same arguments changes nothing more and
    returns the same diagnostic. *)
Theorem update_idempotent
    (info : Info) (args : StateUpdateArgs) (c : CrossingTimeInfo) :
  update (fst (update info args c)) args c = update info args c.
Proof.
  assert (Hflags : forall i : Info,
             damping_time i = damping_time info ->
             char_speed_is_in_danger i c = char_speed_is_in_danger info c /\
             delta_radius_is_in_danger i c = delta_radius_is_in_danger info c).
  { intros i Hi. unfold char_speed_is_in_danger, delta_radius_is_in_danger.
    rewrite Hi. split; reflexivity. }
  destruct (Hflags (fst (update info args c)))
    as [Hc' Hr']; [apply (update_never info args c) | ].
  unfold update at 1 3.
  rewrite Hc', Hr'. clear Hflags Hc' Hr'.
  unfold update.
  destruct (char_speed_is_in_danger info c).
  - destruct (has_value (t_comoving_char_speed c) ||
              (min_comoving_char_speed args <? 0.0)); reflexivity.
  - destruct (delta_radius_is_in_danger info c); [reflexivity | ].
    destruct ((0.0 <? min_comoving_char_speed args) &&
              (delta_r_control_error_threshold
                 <? abs (control_error_delta_r args))); destruct info;
      reflexivity.
Qed.

(** X4: [update] never empties the suggested time scale.  In the branches
    that assign it the assigned optional holds a value, and otherwise it is
    left alone; so a suggestion present before the call is present after
    it. *)
Theorem update_keeps_a_suggestion
    (info : Info) (args : StateUpdateArgs) (c : CrossingTimeInfo) :
  let info' := fst (update info args c) in
  (assigns_suggested_time_scale info args c = true ->
   has_value (suggested_time_scale info') = true) /\
  (assigns_suggested_time_scale info args c = false ->
   suggested_time_scale info' = suggested_time_scale info) /\
  (has_value (suggested_time_scale info) = true ->
   has_value (suggested_time_scale info') = true).
Proof.
  intros info'. unfold info', assigns_suggested_time_scale.
  destruct (char_speed_is_in_danger info c) eqn:Hc.
  - destruct (char_speed_danger_time info c Hc) as [t [Ht _]].
    assert (Hs : suggested_time_scale (fst (update info args c)) = Some t).
    { destruct (comoving_char_speed_unsafe args c) eqn:Hu.
      - rewrite (update_switch info args c Hc Hu). exact Ht.
      - rewrite (update_char_speed_stay info args c Hc Hu). exact Ht. }
    rewrite Hs. simpl.
    split; [reflexivity | split; [discriminate | reflexivity]].
  - destruct (delta_radius_is_in_danger info c) eqn:Hr.
    + destruct (delta_radius_danger_time info c Hr) as [t [Ht _]].
      rewrite (update_delta_radius info args c Hc Hr). simpl. rewrite Ht.
      simpl. split; [reflexivity | split; [discriminate | reflexivity]].
    + destruct (shrink_condition args) eqn:Hs.
      * rewrite (update_shrink info args c Hc Hr Hs). simpl.
        split; [reflexivity | split; [discriminate | reflexivity]].
      * rewrite (update_no_change info args c Hc Hr Hs). simpl.
        split; [discriminate | ]. split; [reflexivity | ].
        intros H. exact H.
Qed.

(** X5: the diagnostic reports the suggested time scale that is stored.
    When [update] assigns one, the diagnostic ends with the words
    [" Suggested timescale = "] followed by the value now in [info];
    otherwise it is the one sentence saying that no change is necessary. *)
Theorem update_diagnostic_reports_suggestion
    (info : Info) (args : StateUpdateArgs) (c : CrossingTimeInfo) :
  let info' := fst (update info args c) in
  let ss := snd (update info args c) in
  if assigns_suggested_time_scale info args c then
    exists before : Diagnostic,
      ss = before ++ [Text " Suggested timescale = ";
                      OptNum (suggested_time_scale info')]
  else
    ss = [Text "Current state DeltaR. No change necessary. Staying in DeltaR."].
Proof.
  intros info' ss. unfold info', ss, assigns_suggested_time_scale.
  unfold shrink_condition, update.
  change delta_r_control_error_threshold with 1e-3.
  destruct (char_speed_is_in_danger info c); simpl orb.
  - destruct (has_value (t_comoving_char_speed c) ||
              (min_comoving_char_speed args <? 0.0)); simpl.
    + eexists [_; _; _; _; _]. reflexivity.
    + eexists [_; _]. reflexivity.
  - destruct (delta_radius_is_in_danger info c); simpl orb.
    + eexists [_]. reflexivity.
    + destruct ((0.0 <? min_comoving_char_speed args) &&
                (1e-3 <? abs (control_error_delta_r args))).
      * eexists [_; _; _; _; _; _; _]. reflexivity.
      * reflexivity.
Qed.

(** X6: the diagnostic says [" Switching to AhSpeed."] exactly when the
    state is replaced, and then it reports the target char speed that is
    stored: the words [" Target char speed = "] are followed by the value
    now in [info]. *)
Theorem update_diagnostic_reports_switch
    (info : Info) (args : StateUpdateArgs) (c : CrossingTimeInfo) :
  let info' := fst (update info args c) in
  let ss := snd (update info args c) in
  (In (Text (" Switching to AhSpeed." ++ nl)) ss <->
   switches_to_AhSpeed info args c = true) /\
  (switches_to_AhSpeed info args c = true ->
   exists after : Diagnostic,
     ss = [Text "Current state DeltaR. Char speed in danger.";
           Text (" Switching to AhSpeed." ++ nl);
           Text " Target char speed = ";
           OptNum (target_char_speed info')] ++ after).
Proof.
  intros info' ss. unfold info', ss, switches_to_AhSpeed.
  unfold comoving_char_speed_unsafe, update.
  destruct (char_speed_is_in_danger info c); simpl andb.
  - destruct (has_value (t_comoving_char_speed c) ||
              (min_comoving_char_speed args <? 0.0)); simpl.
    + split.
      * split; [reflexivity | ]. intros _. right. left. reflexivity.
      * intros _. eexists. reflexivity.
    + split; [ | discriminate]. split; [ | discriminate].
      intros [H | [H | [H | [H | []]]]]; discriminate H.
  - split; [ | discriminate]. split; [ | discriminate].
    destruct (delta_radius_is_in_danger info c).
    + simpl. intros [H | [H | [H | []]]]; discriminate H.
    + destruct ((0.0 <? min_comoving_char_speed args) &&
                (delta_r_control_error_threshold
                   <? abs (control_error_delta_r args))); simpl.
      * intros [H | [H | [H | [H | [H | [H | [H | [H | [H | []]]]]]]]]];
          discriminate H.
      * intros [H | []]; discriminate H.
Qed.

(** ** Special values of binary64 *)

Module FloatEdge.

Lemma SFcompare_refl (y : spec_float) :
  y <> S754_nan -> SFcompare y y = Some Eq.
Proof.
  destruct y as [s | s | | s m e]; simpl; intros Hy.
  - reflexivity.
  - destruct s; reflexivity.
  - contradiction.
  - rewrite Z.compare_refl.
    change (Pos.compare_cont Eq m m) with (Pos.compare m m).
    rewrite Pos.compare_refl. destruct s; reflexivity.
Qed.

Lemma is_nan_spec (x : float) : is_nan x = true <-> Prim2SF x = S754_nan.
Proof.
  unfold is_nan. rewrite negb_true_iff, eqb_spec. unfold SFeqb. split.
  - intros H. destruct (Prim2SF x) as [s | s | | s m e] eqn:Hx;
      try reflexivity; rewrite SFcompare_refl in H; discriminate.
  - intros ->. reflexivity.
Qed.

(** Every comparison with a NaN is false. *)
Lemma ltb_nan (x y : float) :
  is_nan x = true -> (x <? y) = false /\ (y <? x) = false.
Proof.
  rewrite is_nan_spec, !ltb_spec. intros ->. unfold SFltb. split.
  - reflexivity.
  - destruct (Prim2SF y) as [s | s | | s m e]; reflexivity.
Qed.

Lemma mul_nan_l (x y : float) : is_nan x = true -> is_nan (x * y) = true.
Proof.
  rewrite !is_nan_spec, mul_spec. intros ->. reflexivity.
Qed.

Lemma abs_nan (x : float) : is_nan x = true -> is_nan (abs x) = true.
Proof.
  rewrite !is_nan_spec, abs_spec. intros ->. reflexivity.
Qed.

Lemma abs_opp (x : float) : abs (- x) = abs x.
Proof.
  apply Prim2SF_inj. rewrite !abs_spec, opp_spec.
  destruct (Prim2SF x) as [s | s | | s m e]; reflexivity.
Qed.

Lemma sub_zero_r (x : float) : x - 0 = x.
Proof.
  apply Prim2SF_inj. rewrite sub_spec.
  change (Prim2SF 0) with (S754_zero false).
  destruct (Prim2SF x) as [s | s | | s m e]; try reflexivity.
  destruct s; reflexivity.
Qed.

Lemma is_finite_spec (x : float) :
  is_finite x = true ->
  (exists s, Prim2SF x = S754_zero s) \/
  (exists s m e, Prim2SF x = S754_finite s m e).
Proof.
  unfold is_finite. rewrite negb_true_iff, orb_false_iff.
  intros [Hnan Hinf].
  destruct (Prim2SF x) as [s | s | | s m e] eqn:Hx.
  - left. exists s. reflexivity.
  - unfold is_infinity in Hinf. rewrite eqb_spec, abs_spec, Hx in Hinf.
    discriminate.
  - apply is_nan_spec in Hx. congruence.
  - right. exists s, m, e. reflexivity.
Qed.

Lemma sub_diag (x : float) : is_finite x = true -> x - x = 0.
Proof.
  intros Hfin. apply Prim2SF_inj. rewrite sub_spec.
  change (Prim2SF 0) with (S754_zero false).
  destruct (is_finite_spec x Hfin) as [[s ->] | [s [m [e ->]]]].
  - destruct s; reflexivity.
  - unfold SF64sub, SFsub. rewrite Z.sub_diag. reflexivity.
Qed.

End FloatEdge.

Import FloatEdge.

(** X7: a NaN damping time is not rejected.  No danger is then detected,
    whatever the crossing times, so the state is never replaced; in the
    shrink branch the suggested time scale that is stored is NaN, and
    otherwise [info] is left as it was. *)
Theorem update_nan_damping_time
    (info : Info) (args : StateUpdateArgs) (c : CrossingTimeInfo) :
  is_nan (damping_time info) = true ->
  let info' := fst (update info args c) in
  delta_radius_is_in_danger info c = false /\
  char_speed_is_in_danger info c = false /\
  state info' = state info /\
  if shrink_condition args then
    exists s : float, suggested_time_scale info' = Some s /\ is_nan s = true
  else info' = info.
Proof.
  intros Hnan info'.
  assert (Hr : delta_radius_is_in_danger info c = false).
  { unfold delta_radius_is_in_danger.
    destruct (ltb_nan (damping_time info
                       * time_tolerance_for_delta_r_in_danger)
                (value_or (t_delta_radius c) infinity)
                (mul_nan_l _ _ Hnan)) as [_ H].
    rewrite H. apply andb_false_r. }
  assert (Hc : char_speed_is_in_danger info c = false).
  { unfold char_speed_is_in_danger.
    destruct (ltb_nan (damping_time info)
                (value_or (t_char_speed c) infinity) Hnan) as [_ H].
    rewrite H, andb_false_r. reflexivity. }
  split; [exact Hr | ]. split; [exact Hc | ]. unfold info'.
  destruct (shrink_condition args) eqn:Hs.
  - rewrite (update_shrink info args c Hc Hr Hs). split; [reflexivity | ].
    exists (damping_time info * 0.99). split; [reflexivity | ].
    exact (mul_nan_l _ _ Hnan).
  - rewrite (update_no_change info args c Hc Hr Hs). split; reflexivity.
Qed.

Lemma update_nan_damping_time_scenario :
  let info := {| state := DeltaR; damping_time := nan;
                 target_char_speed := None; suggested_time_scale := None;
                 discontinuous_change_has_occurred := false |} in
  is_nan (damping_time info) = true /\
  let info' := fst (update info Scenario.args_large_error
                      Scenario.char_speed_first) in
  delta_radius_is_in_danger info Scenario.char_speed_first = false /\
  char_speed_is_in_danger info Scenario.char_speed_first = false /\
  state info' = DeltaR /\
  exists s : float, suggested_time_scale info' = Some s /\ is_nan s = true.
Proof.
  split; [reflexivity | ].
  apply (update_nan_damping_time
           {| state := DeltaR; damping_time := nan;
              target_char_speed := None; suggested_time_scale := None;
              discontinuous_change_has_occurred := false |}
           Scenario.args_large_error Scenario.char_speed_first).
  reflexivity.
Defined.

(** X8: a NaN control error or a NaN comoving char speed never takes the
    shrink branch: without a danger, [update] then changes nothing. *)
Theorem update_nan_arguments
    (info : Info) (args : StateUpdateArgs) (c : CrossingTimeInfo) :
  is_nan (control_error_delta_r args) = true \/
  is_nan (min_comoving_char_speed args) = true ->
  shrink_condition args = false /\
  (delta_radius_is_in_danger info c = false ->
   char_speed_is_in_danger info c = false ->
   fst (update info args c) = info).
Proof.
  intros Hnan.
  assert (Hs : shrink_condition args = false).
  { unfold shrink_condition. apply andb_false_iff.
    destruct Hnan as [H | H].
    - right. exact (proj2 (ltb_nan _ 1e-3 (abs_nan _ H))).
    - left. exact (proj2 (ltb_nan _ 0.0 H)). }
  split; [exact Hs | ]. intros Hr Hc.
  rewrite (update_no_change info args c Hc Hr Hs). reflexivity.
Qed.

Lemma update_nan_arguments_scenario :
  let args := {| min_char_speed := 0.5; min_comoving_char_speed := 0.5;
                 control_error_delta_r := nan |} in
  is_nan (control_error_delta_r args) = true /\
  shrink_condition args = false /\
  (delta_radius_is_in_danger Scenario.info0 Scenario.no_crossing = false ->
   char_speed_is_in_danger Scenario.info0 Scenario.no_crossing = false ->
   fst (update Scenario.info0 args Scenario.no_crossing) = Scenario.info0).
Proof.
  split; [reflexivity | ].
  apply (update_nan_arguments Scenario.info0
           {| min_char_speed := 0.5; min_comoving_char_speed := 0.5;
              control_error_delta_r := nan |} Scenario.no_crossing).
  left. reflexivity.
Defined.

(** X9: only the magnitude of the control error matters: with the control
    error of the opposite sign [update] does the same and returns the same
    diagnostic. *)
Theorem update_sign_of_control_error
    (info : Info) (args : StateUpdateArgs) (c : CrossingTimeInfo) :
  update info (negate_control_error args) c = update info args c.
Proof.
  unfold update, negate_control_error. simpl. rewrite abs_opp. reflexivity.
Qed.

(** ** [Shape::center_coordinates] *)

(** X10: with the center of a default-constructed [Shape], which is the
    origin, [center_coordinates] returns every point as it is, infinite and
    NaN coordinates and the sign of a zero included. *)
Theorem center_coordinates_default (coords : Shape.array3) :
  Shape.center_coordinates Shape.default coords = coords.
Proof.
  destruct coords as [[coords0 coords1] coords2]. unfold Shape.default.
  simpl. rewrite !sub_zero_r. reflexivity.
Qed.

(** X11: a center with finite coordinates has the coordinates
    [(0, 0, 0)] relative to itself, each zero positive. *)
Theorem center_coordinates_of_center (self : Shape.t) :
  (let '(center0, center1, center2) := Shape.center_ self in
   is_finite center0 && is_finite center1 && is_finite center2) = true ->
  Shape.center_coordinates self (Shape.center_ self) = (0.0, 0.0, 0.0).
Proof.
  destruct self as [[[center0 center1] center2]]. simpl.
  rewrite !andb_true_iff. intros [[H0 H1] H2].
  rewrite (sub_diag _ H0), (sub_diag _ H1), (sub_diag _ H2). reflexivity.
Qed.

Lemma center_coordinates_of_center_example :
  (is_finite 1.5 && is_finite (-2.0) && is_finite 0.25) = true /\
  Shape.center_coordinates {| Shape.center_ := (1.5, -2.0, 0.25) |}
    (1.5, -2.0, 0.25) = (0.0, 0.0, 0.0).
Proof.
  split; [reflexivity | ].
  apply (center_coordinates_of_center
           {| Shape.center_ := (1.5, -2.0, 0.25) |}).
  reflexivity.
Defined.

(** ** The sign of a rounded product *)

Module FloatSign.

Import Rounding.
Local Open Scope Z_scope.

Lemma shr_record_of_loc_m (m : Z) (l : location) :
  shr_m (shr_record_of_loc m l) = m.
Proof. destruct l as [ | [ | | ]]; reflexivity. Qed.

Lemma shr_fexp_nonneg (m e : Z) (l : location) :
  0 <= m -> 0 <= shr_m (fst (shr_fexp prec emax m e l)).
Proof.
  intros Hm. unfold shr_fexp, shr.
  destruct (fexp prec emax (Zdigits2 m + e) - e) as [ | p | p]; simpl fst;
    try (rewrite shr_record_of_loc_m; exact Hm).
  rewrite iter_pos_shr_1_m by (rewrite shr_record_of_loc_m; exact Hm).
  rewrite shr_record_of_loc_m. apply Z.div_pos; lia.
Qed.

(** Rounding keeps the sign it is given. *)
Lemma binary_round_aux_sign (sx : bool) (mx ex : Z) (lx : location) :
  0 <= mx ->
  binary_round_aux prec emax sx mx ex lx = S754_zero sx \/
  binary_round_aux prec emax sx mx ex lx = S754_infinity sx \/
  exists (m : positive) (e : Z),
    binary_round_aux prec emax sx mx ex lx = S754_finite sx m e.
Proof.
  intros Hmx. unfold binary_round_aux.
  pose proof (shr_fexp_nonneg mx ex lx Hmx) as H1.
  destruct (shr_fexp prec emax mx ex lx) as [mrs' e']. simpl fst in H1.
  pose proof (round_nearest_even_bounds (shr_m mrs') (loc_of_shr_record mrs'))
    as HR.
  pose proof (shr_fexp_nonneg
                (round_nearest_even (shr_m mrs') (loc_of_shr_record mrs'))
                e' loc_Exact ltac:(lia)) as H2.
  destruct (shr_fexp prec emax _ e' loc_Exact) as [mrs'' e''].
  simpl fst in H2.
  destruct (shr_m mrs'') as [ | m | m].
  - left. reflexivity.
  - destruct (e'' <=? emax - prec).
    + right. right. exists m, e''. reflexivity.
    + right. left. reflexivity.
  - lia.
Qed.

Local Open Scope float_scope.

(** The product of a double that is not above zero and [0.99] is not above
    zero. *)
Lemma mul_099_nonpos (d : float) :
  (d <=? 0) = true -> (d * 0.99 <=? 0) = true.
Proof.
  rewrite !leb_spec, mul_099_spec.
  change (Prim2SF 0) with (S754_zero false). unfold SFleb.
  destruct (Prim2SF d) as [s | s | | s m e]; simpl SFcompare at 1;
    try discriminate.
  - intros _. destruct s; reflexivity.
  - destruct s; [intros _; reflexivity | discriminate].
  - destruct s; [intros _ | discriminate].
    unfold SF64mul, x99, SFmul. simpl xorb.
    destruct (binary_round_aux_sign true (Z.pos (m * c99)) (e + -53)
                loc_Exact ltac:(lia)) as [H | [H | [m' [e' H]]]];
      rewrite H; reflexivity.
Qed.

End FloatSign.

Import FloatSign.

(** X12: a damping time that is not positive is not rejected.  When the
    crossing times that are present are not negative, no danger is detected
    and the state stays; in the shrink branch the suggested time scale that
    is stored is not positive, and otherwise [info] is left as it was. *)
Theorem update_nonpositive_damping_time
    (info : Info) (args : StateUpdateArgs) (c : CrossingTimeInfo) :
  (damping_time info <=? 0) = true ->
  nonnegative_time (t_char_speed c) = true ->
  nonnegative_time (t_delta_radius c) = true ->
  let info' := fst (update info args c) in
  delta_radius_is_in_danger info c = false /\
  char_speed_is_in_danger info c = false /\
  state info' = state info /\
  if shrink_condition args then
    exists s : float,
      suggested_time_scale info' = Some s /\ (s <=? 0) = true
  else info' = info.
Proof.
  intros Hd Htc Htr info'.
  assert (Hbelow : forall (o : option float) (y : float),
             nonnegative_time o = true -> (y <=? 0) = true ->
             (value_or o infinity <? y) = false).
  { intros o y Ho Hy. destruct o as [t | ]; simpl in *.
    - destruct (t <? y) eqn:Hlt; [ | reflexivity].
      pose proof (ltb_leb_trans _ _ _ Hlt Hy) as Hneg.
      rewrite (leb_not_ltb _ _ Ho) in Hneg. discriminate.
    - apply ltb_infinity_l. }
  assert (Hr : delta_radius_is_in_danger info c = false).
  { unfold delta_radius_is_in_danger.
    change time_tolerance_for_delta_r_in_danger with 0.99.
    rewrite (Hbelow _ _ Htr (mul_099_nonpos _ Hd)). apply andb_false_r. }
  assert (Hc : char_speed_is_in_danger info c = false).
  { unfold char_speed_is_in_danger.
    rewrite (Hbelow _ _ Htc Hd), andb_false_r. reflexivity. }
  split; [exact Hr | ]. split; [exact Hc | ]. unfold info'.
  destruct (shrink_condition args) eqn:Hs.
  - rewrite (update_shrink info args c Hc Hr Hs). split; [reflexivity | ].
    exists (damping_time info * 0.99). split; [reflexivity | ].
    exact (mul_099_nonpos _ Hd).
  - rewrite (update_no_change info args c Hc Hr Hs). split; reflexivity.
Qed.

Lemma update_nonpositive_damping_time_scenario :
  let info := {| state := DeltaR; damping_time := -10.0;
                 target_char_speed := None; suggested_time_scale := None;
                 discontinuous_change_has_occurred := false |} in
  (damping_time info <=? 0) = true /\
  nonnegative_time (t_char_speed Scenario.char_speed_first) = true /\
  nonnegative_time (t_delta_radius Scenario.char_speed_first) = true /\
  let info' := fst (update info Scenario.args_large_error
                      Scenario.char_speed_first) in
  delta_radius_is_in_danger info Scenario.char_speed_first = false /\
  char_speed_is_in_danger info Scenario.char_speed_first = false /\
  state info' = DeltaR /\
  exists s : float,
    suggested_time_scale info' = Some s /\ (s <=? 0) = true.
Proof.
  split; [reflexivity | split; [reflexivity | split; [reflexivity | ]]].
  apply (update_nonpositive_damping_time
           {| state := DeltaR; damping_time := -10.0;
              target_char_speed := None; suggested_time_scale := None;
              discontinuous_change_has_occurred := false |}
           Scenario.args_large_error Scenario.char_speed_first);
    reflexivity.
Defined.
